(** * The Voices: a shallow embedding of [thevoices/__main__.py]

    The module exposes two tools.  [list_available_models] derives, from the
    process environment, which entries of LiteLLM's model catalog are usable;
    [ask_the_voice] compiles a persona request into a system prompt, sends it
    through LiteLLM's [completion] and extracts the reply.

    Conventions of the embedding:
    - a Python [str] is the byte string of its UTF-8 encoding; comparing such
      byte strings lexicographically agrees with Python's comparison by code
      point, and a [str] is empty exactly when its encoding is;
    - [os.environ] is a finite map from names to values, passed as a snapshot;
    - the external collaborators ([model_list], [get_llm_provider],
      [completion]) are arguments of the embedded functions;
    - raising is a value of the [result] type, and the calls made to
      [completion] are recorded in a log that is threaded through
      [ask_the_voice]. *)

From Stdlib Require Import PrimFloat.
From stdpp Require Import gmap strings list sorting.

Set Warnings "-register-all,-clear-no-such-hyp".

(* ===================================================================== *)
(** ** Python values and exceptions *)
(* ===================================================================== *)

(** The values that cross the boundary with LiteLLM: keyword arguments of
    [completion] and the response it returns.  [VObj cls attrs] is an instance
    of class [cls] that carries the attributes [attrs] and defines no
    [__getitem__]; [VDict] is a dict with string keys. *)
Inductive value : Type :=
  | VNone
  | VStr (s : string)
  | VFloat (x : float)
  | VList (items : list value)
  | VDict (entries : gmap string value)
  | VObj (cls : string) (attrs : gmap string value).

(** The exception classes that matter to the two tools.  [Exception] stands
    for every other subclass of Python's [Exception] a collaborator may raise;
    each exception carries the text that [str(e)] yields. *)
Inductive exn : Type :=
  | AttributeError (msg : string)
  | IndexError (msg : string)
  | TypeError (msg : string)
  | KeyError (msg : string)
  | ToolError (msg : string)
  | Exception (msg : string).

Definition str_exn (e : exn) : string :=
  match e with
  | AttributeError msg | IndexError msg | TypeError msg
  | KeyError msg | ToolError msg | Exception msg => msg
  end.

(** [except Exception] catches every modelled class. *)
Definition is_Exception (e : exn) : bool := true.

(** [except (AttributeError, IndexError)]. *)
Definition is_AttributeError_or_IndexError (e : exn) : bool :=
  match e with
  | AttributeError _ | IndexError _ => true
  | _ => false
  end.

(** The outcome of evaluating a Python expression or block. *)
Inductive result (A : Type) : Type :=
  | Ok (a : A)
  | Raise (e : exn).
Arguments Ok {A} a.
Arguments Raise {A} e.

#[global] Instance result_ret : MRet result := λ A, Ok.
#[global] Instance result_bind : MBind result := λ A B f r,
  match r with
  | Ok a => f a
  | Raise e => Raise e
  end.

(** [try: body / except classes as e: handler e]. *)
Definition try_except {A} (body : result A) (classes : exn → bool)
    (handler : exn → result A) : result A :=
  match body with
  | Ok a => Ok a
  | Raise e => if classes e then handler e else Raise e
  end.

(** [for x in xs: s = body s x], stopping at the first exception that
    escapes [body]. *)
Fixpoint for_each {A S} (body : S → A → result S) (s : S) (xs : list A)
    : result S :=
  match xs with
  | [] => Ok s
  | x :: xs => s' ← body s x; for_each body s' xs
  end.

(** Truthiness of an optional string: [None] and [""] are falsy. *)
Definition truthy (v : option string) : bool :=
  match v with
  | Some s => bool_decide (s ≠ "")
  | None => false
  end.

(** [a or b] on optional strings. *)
Definition py_or (a b : option string) : option string :=
  if truthy a then a else b.

Definition type_name (v : value) : string :=
  match v with
  | VNone => "NoneType"
  | VStr _ => "str"
  | VFloat _ => "float"
  | VList _ => "list"
  | VDict _ => "dict"
  | VObj cls _ => cls
  end.

(** The attribute [name] of [v], when [v] has one.  Only class instances
    carry the data attributes looked up by the tools. *)
Definition attribute (v : value) (name : string) : option value :=
  match v with
  | VObj _ attrs => attrs !! name
  | _ => None
  end.

(** [v.name] *)
Definition getattr (v : value) (name : string) : result value :=
  match attribute v name with
  | Some x => Ok x
  | None =>
      Raise (AttributeError
        ("'" +:+ type_name v +:+ "' object has no attribute '" +:+ name +:+ "'"))
  end.

(** Bytes [10xxxxxx] continue a UTF-8 encoded code point. *)
Definition is_continuation (c : Ascii.ascii) : bool :=
  match c with
  | Ascii.Ascii _ _ _ _ _ _ false true => true
  | _ => false
  end.

Fixpoint continuation_bytes (s : string) : string :=
  match s with
  | String c s' =>
      if is_continuation c then String c (continuation_bytes s') else ""
  | EmptyString => ""
  end.

(** [v[0]] *)
Definition getitem0 (v : value) : result value :=
  match v with
  | VList (x :: _) => Ok x
  | VList [] => Raise (IndexError "list index out of range")
  | VStr (String c s) => Ok (VStr (String c (continuation_bytes s)))
  | VStr EmptyString => Raise (IndexError "string index out of range")
  | VDict _ => Raise (KeyError "0")
  | VNone | VFloat _ | VObj _ _ =>
      Raise (TypeError ("'" +:+ type_name v +:+ "' object is not subscriptable"))
  end.

(* ===================================================================== *)
(** ** [list_available_models] *)
(* ===================================================================== *)

(** A value of [provider_key_mapping]: one variable name, or a list of
    names ([isinstance(keys, list)]). *)
Inductive required_keys : Type :=
  | Single (key : string)
  | Several (keys : list string).

#[global] Instance required_keys_eq_dec : EqDecision required_keys.
Proof. solve_decision. Defined.

(** The dict literal, in insertion order. *)
Definition provider_key_mapping : list (string * required_keys) :=
  [ ("openai", Single "OPENAI_API_KEY");
    ("anthropic", Single "ANTHROPIC_API_KEY");
    ("vertex_ai", Several ["VERTEXAI_PROJECT"; "VERTEXAI_LOCATION"]);
    ("azure", Several ["AZURE_API_KEY"; "AZURE_API_BASE"]);
    ("cohere", Single "COHERE_API_KEY");
    ("huggingface", Single "HUGGINGFACE_API_KEY");
    ("replicate", Single "REPLICATE_API_TOKEN");
    ("together_ai", Single "TOGETHERAI_API_KEY");
    ("openrouter", Single "OPENROUTER_API_KEY");
    ("ai21", Single "AI21_API_KEY");
    ("palm", Single "PALM_API_KEY");
    ("bedrock", Several ["AWS_ACCESS_KEY_ID"; "AWS_SECRET_ACCESS_KEY"]);
    ("sagemaker", Several ["AWS_ACCESS_KEY_ID"; "AWS_SECRET_ACCESS_KEY"]) ].

(** One iteration of [for provider, keys in provider_key_mapping.items()]. *)
Definition check_provider (env : gmap string string)
    (available_providers : gset string) (item : string * required_keys)
    : gset string :=
  let '(provider, keys) := item in
  match keys with
  | Several keys =>
      if forallb (λ key, truthy (env !! key)) keys
      then {[provider]} ∪ available_providers
      else available_providers
  | Single keys =>
      if truthy (env !! keys)
      then {[provider]} ∪ available_providers
      else available_providers
  end.

(** The set [available_providers] once the first loop has run over
    [mapping]. *)
Definition resolve_providers (env : gmap string string)
    (mapping : list (string * required_keys)) : gset string :=
  foldl (check_provider env) ∅ mapping.

Definition available_providers (env : gmap string string) : gset string :=
  resolve_providers env provider_key_mapping.

(** What [get_llm_provider] returns:
    [(model, custom_llm_provider, dynamic_api_key, api_base)]. *)
Definition provider_info : Type :=
  string * string * option string * option string.

(** The body of [for model in model_list], with its [try]/[except]. *)
Definition filter_model
    (get_llm_provider : string → result provider_info)
    (available_providers : gset string)
    (available_models : list string) (model : string)
    : result (list string) :=
  try_except
    ('(_, provider, _, _) ← get_llm_provider model;
     if bool_decide (provider ∈ available_providers)
     then Ok (available_models ++ [provider +:+ "/" +:+ model])
     else Ok available_models)
    is_Exception
    (λ _, Ok available_models).

Definition list_available_models (env : gmap string string)
    (model_list : list string)
    (get_llm_provider : string → result provider_info)
    : result (list string) :=
  let available_providers := available_providers env in
  available_models ←
    for_each (filter_model get_llm_provider available_providers) [] model_list;
  let current_model := env !! "LITELLM_MODEL" in
  let available_models :=
    match current_model with
    | Some current_model =>
        if truthy (Some current_model)
        then current_model :: available_models
        else available_models
    | None => available_models
    end in
  Ok (merge_sort String.le available_models).

(* ===================================================================== *)
(** ** [ask_the_voice] *)
(* ===================================================================== *)

(** The keyword arguments of one call of [completion]: the dict
    [completion_params], unpacked. *)
Abbreviation kwargs := (gmap string value).

(** A block of [ask_the_voice]: it starts from the log of the calls made to
    [completion] so far, and ends with a result and the extended log. *)
Definition io (A : Type) : Type := list kwargs → result A * list kwargs.

#[global] Instance io_ret : MRet io := λ A a log, (Ok a, log).
#[global] Instance io_bind : MBind io := λ A B f m log,
  match m log with
  | (Ok a, log') => f a log'
  | (Raise e, log') => (Raise e, log')
  end.

(** A block that touches nothing outside: an expression, or [raise]. *)
Definition lift {A} (r : result A) : io A := λ log, (r, log).

(** [try: body / except classes as e: handler e] around a block. *)
Definition try_except_io {A} (body : io A) (classes : exn → bool)
    (handler : exn → io A) : io A := λ log,
  match body log with
  | (Ok a, log') => (Ok a, log')
  | (Raise e, log') => if classes e then handler e log' else (Raise e, log')
  end.

(** The call of [completion] on the unpacked [completion_params]: the call
    is logged and LiteLLM answers with a response or raises. *)
Definition call (completion : kwargs → result value)
    (completion_params : kwargs) : io value := λ log,
  (completion completion_params, log ++ [completion_params]).

(** The line feed, [\n]. *)
Definition NL : string := String (Ascii.ascii_of_nat 10) "".

(** The system prompt built from the four text fields. *)
Definition prompt (role_title role_description context task : string)
    : string :=
  ("You are '" +:+ role_title +:+ "'" +:+ NL +:+ NL)
  +:+ ("# Role Description" +:+ NL +:+ NL)
  +:+ (role_description +:+ NL +:+ NL)
  +:+ ("# Context" +:+ NL +:+ NL)
  +:+ (context +:+ NL +:+ NL)
  +:+ ("# Task" +:+ NL +:+ NL)
  +:+ task.

(** An optional string as a Python value. *)
Definition str_value (s : option string) : value :=
  match s with
  | Some s => VStr s
  | None => VNone
  end.

(** The dict [completion_params] as it stands when [completion] is called. *)
Definition completion_params (selected_model : option string)
    (prompt : string) (temperature : option float) : kwargs :=
  let completion_params : kwargs :=
    {[ "model" := str_value selected_model;
       "messages" := VList
         [ VDict {[ "role" := VStr "system"; "content" := VStr prompt ]};
           VDict {[ "role" := VStr "user";
                    "content" :=
                      VStr "Please respond based on the above instructions." ]} ]
    ]} in
  match temperature with
  | Some temperature =>
      <["temperature" := VFloat temperature]> completion_params
  | None => completion_params
  end.

(** [response.choices[0].message.content], then the [None] replacement. *)
Definition extract_content (response : value) : result value :=
  choices ← getattr response "choices";
  first ← getitem0 choices;
  message ← getattr first "message";
  content ← getattr message "content";
  Ok (match content with
      | VNone => VStr ""
      | _ => content
      end).

Definition ask_the_voice
    (completion : kwargs → result value) (env : gmap string string)
    (role_title role_description context task : string)
    (model : option string) (temperature : option float) : io value :=
  let selected_model := py_or model (env !! "LITELLM_MODEL") in
  if negb (truthy selected_model)
  then lift (Raise (ToolError
    "Missing environment variable: LITELLM_MODEL and no model parameter provided"))
  else
    let prompt := prompt role_title role_description context task in
    response ←
      try_except_io
        (call completion (completion_params selected_model prompt temperature))
        is_Exception
        (λ e, lift (Raise (ToolError ("LLM request failed: " +:+ str_exn e))));
    try_except_io
      (lift (extract_content response))
      is_AttributeError_or_IndexError
      (λ e, lift (Raise
        (ToolError ("Unexpected response format: " +:+ str_exn e)))).

(* ===================================================================== *)
(** ** Vocabulary of the statements *)
(* ===================================================================== *)

(** The variable [key] is present in [env] with a non-empty value. *)
Definition is_set (env : gmap string string) (key : string) : Prop :=
  ∃ v, env !! key = Some v ∧ v ≠ "".

(** The variable names an entry of [provider_key_mapping] asks for. *)
Definition names (keys : required_keys) : list string :=
  match keys with
  | Single key => [key]
  | Several keys => keys
  end.

(** Every variable an entry asks for is set, for either form of entry. *)
Definition requirement_met (env : gmap string string) (keys : required_keys)
    : Prop :=
  match keys with
  | Single key => is_set env key
  | Several keys => Forall (is_set env) keys
  end.

(** The providers of [provider_key_mapping] that ask for [key]. *)
Definition providers_requiring (key : string) : list string :=
  (filter (λ item : string * required_keys, key ∈ names item.2)
     provider_key_mapping).*1.

(** [env'] is [env] with the variable [key] made absent or empty. *)
Definition unset (key : string) (env env' : gmap string string) : Prop :=
  env' = delete key env ∨ env' = <[key := ""]> env.

(** The reading of "removes exactly that provider": the resolved set loses
    [provider] and nothing else. *)
Definition removes_exactly (provider : string)
    (env env' : gmap string string) : Prop :=
  available_providers env' = available_providers env ∖ {[provider]}.

(** What one catalog entry contributes to [available_models]. *)
Definition emitted (get_llm_provider : string → result provider_info)
    (available_providers : gset string) (model : string) : list string :=
  match get_llm_provider model with
  | Ok (_, provider, _, _) =>
      if bool_decide (provider ∈ available_providers)
      then [provider +:+ "/" +:+ model]
      else []
  | Raise _ => []
  end.

(** The value of [LITELLM_MODEL] when it is inserted into the list. *)
Definition selected (env : gmap string string) : list string :=
  match env !! "LITELLM_MODEL" with
  | Some current_model =>
      if truthy (Some current_model) then [current_model] else []
  | None => []
  end.

(** Provider inference succeeds on [model]. *)
Definition inferable (get_llm_provider : string → result provider_info)
    (model : string) : bool :=
  match get_llm_provider model with
  | Ok _ => true
  | Raise _ => false
  end.

(** The strings [parts] occur in [s] one after the other, without overlap. *)
Fixpoint occur_in_order (parts : list string) (s : string) : Prop :=
  match parts with
  | [] => True
  | part :: parts =>
      ∃ before after,
        s = before +:+ part +:+ after ∧ occur_in_order parts after
  end.

(** The content found by following [choices], first element, [message],
    [content] through a response made of class instances and a list. *)
Definition reply_content (response : value) : option value :=
  choices ← attribute response "choices";
  first ← match choices with
          | VList (first :: _) => Some first
          | _ => None
          end;
  message ← attribute first "message";
  attribute message "content".

(** The values that [v[0]] treats as sequences: lists and strings.  On these
    a failed indexing is an [IndexError]. *)
Definition is_sequence (v : value) : bool :=
  match v with
  | VList _ | VStr _ => true
  | VNone | VFloat _ | VDict _ | VObj _ _ => false
  end.

(** The text of the configuration error. *)
Definition missing_model_message : string :=
  "Missing environment variable: LITELLM_MODEL and no model parameter provided".

(** The credential variables the table of providers names. *)
Definition credential_variables : list string :=
  provider_key_mapping ≫= (λ item : string * required_keys, names item.2).

(** The provider inferred for a catalog entry, when the inference returns:
    the second component of the tuple. *)
Definition inferred_provider
    (get_llm_provider : string → result provider_info) (model : string)
    : option string :=
  match get_llm_provider model with
  | Ok (_, provider, _, _) => Some provider
  | Raise _ => None
  end.

(** The catalog entry is listed: its provider is inferred and available. *)
Definition listed (get_llm_provider : string → result provider_info)
    (available_providers : gset string) (model : string) : bool :=
  match get_llm_provider model with
  | Ok (_, provider, _, _) => bool_decide (provider ∈ available_providers)
  | Raise _ => false
  end.

(** Values that [v[0]] rejects with a [TypeError]: neither a sequence nor a
    mapping. *)
Definition not_subscriptable (v : value) : bool :=
  match v with
  | VNone | VFloat _ | VObj _ _ => true
  | VStr _ | VList _ | VDict _ => false
  end.

(* ===================================================================== *)
(** ** The provider availability resolver *)
(* ===================================================================== *)

Section resolver.
Context (env : gmap string string).

Lemma truthy_is_set key : truthy (env !! key) = true ↔ is_set env key.
Proof.
  unfold is_set. destruct (env !! key) as [v|]; simpl.
  - rewrite bool_decide_eq_true. naive_solver.
  - naive_solver.
Qed.

Lemma forallb_truthy keys :
  forallb (λ key, truthy (env !! key)) keys = true ↔
  Forall (is_set env) keys.
Proof.
  induction keys as [|key keys IH]; simpl.
  - split; [constructor | done].
  - rewrite andb_true_iff, Forall_cons, IH, truthy_is_set. done.
Qed.

Lemma requirement_met_names keys :
  requirement_met env keys ↔ Forall (is_set env) (names keys).
Proof.
  destruct keys as [key|keys]; simpl; [|done].
  rewrite Forall_cons, Forall_nil. tauto.
Qed.

Lemma elem_of_check_provider provider acc item :
  provider ∈ check_provider env acc item ↔
  provider ∈ acc ∨ (provider = item.1 ∧ requirement_met env item.2).
Proof.
  destruct item as [q [key|keys]]; simpl.
  - destruct (truthy (env !! key)) eqn:E.
    + apply truthy_is_set in E. set_solver.
    + assert (¬ is_set env key) by (rewrite <- truthy_is_set; congruence).
      set_solver.
  - destruct (forallb _ keys) eqn:E.
    + apply forallb_truthy in E. set_solver.
    + assert (¬ Forall (is_set env) keys)
        by (rewrite <- forallb_truthy; congruence).
      set_solver.
Qed.

Lemma elem_of_foldl_check_provider provider mapping : ∀ acc,
  provider ∈ foldl (check_provider env) acc mapping ↔
  provider ∈ acc ∨
  ∃ keys, (provider, keys) ∈ mapping ∧ requirement_met env keys.
Proof.
  induction mapping as [|[q keys] mapping IH]; intros acc; cbn [foldl].
  - set_solver.
  - rewrite IH, elem_of_check_provider. cbn [fst snd]. split.
    + intros [[?|[-> ?]]|(keys' & ? & ?)]; [by left| |].
      * right. exists keys. split; [left | done].
      * right. exists keys'. split; [by right | done].
    + intros [?|(keys' & Hin & ?)]; [by left; left|].
      apply elem_of_cons in Hin as [[= -> ->]|Hin].
      * left. by right.
      * right. by exists keys'.
Qed.

Lemma elem_of_resolve_providers provider mapping :
  provider ∈ resolve_providers env mapping ↔
  ∃ keys, (provider, keys) ∈ mapping ∧ requirement_met env keys.
Proof.
  unfold resolve_providers. rewrite elem_of_foldl_check_provider.
  set_solver.
Qed.
End resolver.

(** Claim C1.  For every environment, a provider belongs to the resolved set
    of available providers if and only if the table has an entry for it and
    every variable of that entry is present with a non-empty value: the one
    variable of a single-variable entry, all the variables of a list entry.
    A variable bound to the empty string counts as absent. *)
Theorem available_iff_all_required_set (env : gmap string string)
    (provider : string) :
  provider ∈ available_providers env ↔
  ∃ keys, (provider, keys) ∈ provider_key_mapping ∧
    match keys with
    | Single key => ∃ v, env !! key = Some v ∧ v ≠ ""
    | Several keys => ∀ key, key ∈ keys → ∃ v, env !! key = Some v ∧ v ≠ ""
    end.
Proof.
  unfold available_providers. rewrite elem_of_resolve_providers.
  split; intros (keys & Hin & Hmet); exists keys; (split; [done|]);
    destruct keys as [key|keys]; simpl in *; try done.
  - by apply Forall_forall.
  - by apply Forall_forall.
Qed.

(** *** Unsetting one variable *)

Lemma is_set_unset key env env' k :
  unset key env env' → is_set env' k ↔ is_set env k ∧ k ≠ key.
Proof.
  unfold is_set. intros [-> | ->]; destruct (decide (k = key)) as [->|Hne].
  - rewrite lookup_delete_eq. naive_solver.
  - rewrite lookup_delete_ne by done. naive_solver.
  - rewrite lookup_insert_eq. naive_solver.
  - rewrite lookup_insert_ne by done. naive_solver.
Qed.

Lemma requirement_met_unset key env env' keys :
  unset key env env' →
  requirement_met env' keys ↔ requirement_met env keys ∧ key ∉ names keys.
Proof.
  intros Hun. rewrite !requirement_met_names, !Forall_forall. split.
  - intros Hall. split.
    + intros k Hk. by apply (is_set_unset _ _ _ _ Hun), Hall.
    + intros Hk. by apply Hall, (is_set_unset _ _ _ _ Hun) in Hk as [_ ?].
  - intros [Hall Hnot] k Hk. apply (is_set_unset _ _ _ _ Hun). split.
    + by apply Hall.
    + by intros ->.
Qed.

(** The dict literal has one entry per provider. *)
Lemma provider_key_mapping_NoDup : NoDup provider_key_mapping.*1.
Proof. apply (bool_decide_unpack _). by vm_compute. Qed.

Lemma provider_key_mapping_functional provider keys1 keys2 :
  (provider, keys1) ∈ provider_key_mapping →
  (provider, keys2) ∈ provider_key_mapping → keys1 = keys2.
Proof.
  intros H1 H2.
  apply (elem_of_list_to_map (M := gmap string)) in H1, H2;
    try apply provider_key_mapping_NoDup.
  congruence.
Qed.

Lemma elem_of_providers_requiring key provider :
  provider ∈ providers_requiring key ↔
  ∃ keys, (provider, keys) ∈ provider_key_mapping ∧ key ∈ names keys.
Proof.
  unfold providers_requiring. rewrite list_elem_of_fmap. split.
  - intros ([q keys] & -> & Hin). apply list_elem_of_filter in Hin as [? ?].
    by exists keys.
  - intros (keys & Hin & Hkey). exists (provider, keys). split; [done|].
    by apply list_elem_of_filter.
Qed.

(** Only [bedrock] and [sagemaker] ask for a variable that another provider
    asks for as well. *)
Lemma providers_requiring_table :
  Forall (λ item : string * required_keys,
    Forall (λ key,
      providers_requiring key =
        if bool_decide (item.1 ∈ ["bedrock"; "sagemaker"])
        then ["bedrock"; "sagemaker"] else [item.1]) (names item.2))
    provider_key_mapping.
Proof. apply (bool_decide_unpack _). by vm_compute. Qed.

Lemma available_providers_unset key env env' :
  unset key env env' →
  available_providers env' =
  available_providers env ∖ list_to_set (providers_requiring key).
Proof.
  intros Hun. apply set_eq. intros q.
  rewrite elem_of_difference, elem_of_list_to_set, elem_of_providers_requiring.
  unfold available_providers. rewrite !elem_of_resolve_providers. split.
  - intros (keys & Hin & Hmet).
    apply (requirement_met_unset _ _ _ _ Hun) in Hmet as [Hmet Hnot].
    split; [by exists keys|].
    intros (keys' & Hin' & Hkey).
    by rewrite (provider_key_mapping_functional _ _ _ Hin Hin') in Hnot.
  - intros [(keys & Hin & Hmet) Hnone]. exists keys. split; [done|].
    apply (requirement_met_unset _ _ _ _ Hun). split; [done|].
    intros Hkey. apply Hnone. by exists keys.
Qed.

(** Claim C2, as stated, fails.  With both AWS variables set, [bedrock] and
    [sagemaker] are available; making [AWS_ACCESS_KEY_ID] absent, a variable
    [bedrock] requires, removes [sagemaker] as well, so the resolved set is
    not the former set without [bedrock] alone. *)
Lemma unset_shared_variable_removes_two :
  let env : gmap string string :=
    {[ "AWS_ACCESS_KEY_ID" := "id"; "AWS_SECRET_ACCESS_KEY" := "secret" ]} in
  let env' := delete "AWS_ACCESS_KEY_ID" env in
  (("bedrock", Several ["AWS_ACCESS_KEY_ID"; "AWS_SECRET_ACCESS_KEY"])
    ∈ provider_key_mapping) ∧
  "bedrock" ∈ available_providers env ∧
  "sagemaker" ∈ available_providers env ∧
  ("sagemaker" ∉ available_providers env') ∧
  ¬ removes_exactly "bedrock" env env'.
Proof.
  assert (Hcalc :
    available_providers
      {[ "AWS_ACCESS_KEY_ID" := "id"; "AWS_SECRET_ACCESS_KEY" := "secret" ]}
      = {[ "bedrock"; "sagemaker" ]} ∧
    available_providers
      (delete "AWS_ACCESS_KEY_ID"
        {[ "AWS_ACCESS_KEY_ID" := "id"; "AWS_SECRET_ACCESS_KEY" := "secret" ]})
      = ∅) by (by vm_compute).
  destruct Hcalc as [Hbefore Hafter]. cbv zeta. unfold removes_exactly.
  rewrite Hbefore, Hafter. split_and!.
  - apply (bool_decide_unpack _). by vm_compute.
  - set_solver.
  - set_solver.
  - set_solver.
  - intros Heq. assert (Hin : "sagemaker" ∈ (∅ : gset string)).
    { rewrite Heq. apply elem_of_difference. split; [set_solver|].
      rewrite elem_of_singleton. discriminate. }
    set_solver.
Qed.

(** Claim C2, amended.  When a provider is available and one of its required
    variables is made absent or empty, the resolved set loses exactly the
    providers that require this variable, the provider itself among them, and
    no other provider's availability changes.  In the table only [bedrock]
    and [sagemaker] share variables (the two AWS ones), so they leave
    together; for every other provider the set loses that provider alone. *)
Theorem unset_removes_providers_requiring (env env' : gmap string string)
    (provider key : string) (keys : required_keys) :
  (provider, keys) ∈ provider_key_mapping →
  key ∈ names keys →
  provider ∈ available_providers env →
  unset key env env' →
  available_providers env' =
    available_providers env ∖ list_to_set (providers_requiring key) ∧
  providers_requiring key =
    (if bool_decide (provider ∈ ["bedrock"; "sagemaker"])
     then ["bedrock"; "sagemaker"] else [provider]) ∧
  provider ∉ available_providers env'.
Proof.
  intros Hin Hkey Havail Hun.
  pose proof (available_providers_unset _ _ _ Hun) as Heq.
  pose proof providers_requiring_table as Htable.
  rewrite Forall_forall in Htable. specialize (Htable _ Hin).
  rewrite Forall_forall in Htable. specialize (Htable _ Hkey).
  simpl in Htable. repeat split; [done..|].
  rewrite Heq, elem_of_difference, elem_of_list_to_set.
  intros [_ Hnot]. apply Hnot, elem_of_providers_requiring. by exists keys.
Qed.

Lemma unset_removes_providers_requiring_witness :
  let env : gmap string string :=
    {[ "OPENAI_API_KEY" := "sk"; "AWS_ACCESS_KEY_ID" := "id";
       "AWS_SECRET_ACCESS_KEY" := "secret" ]} in
  let env' := <["OPENAI_API_KEY" := ""]> env in
  available_providers env' =
    available_providers env ∖ list_to_set (providers_requiring "OPENAI_API_KEY") ∧
  providers_requiring "OPENAI_API_KEY" = ["openai"] ∧
  "openai" ∉ available_providers env'.
Proof.
  cbv zeta.
  apply (unset_removes_providers_requiring _ _ "openai" "OPENAI_API_KEY"
           (Single "OPENAI_API_KEY")).
  - apply (bool_decide_unpack _). by vm_compute.
  - apply (bool_decide_unpack _). by vm_compute.
  - apply (bool_decide_unpack _). by vm_compute.
  - by right.
Defined.

(* ===================================================================== *)
(** ** The model catalog filter *)
(* ===================================================================== *)

Section catalog.
Context (get_llm_provider : string → result provider_info).

Lemma filter_model_emitted providers available_models model :
  filter_model get_llm_provider providers available_models model =
  Ok (available_models ++ emitted get_llm_provider providers model).
Proof.
  unfold filter_model, emitted.
  destruct (get_llm_provider model) as [[[[m provider] k] b]|e]; simpl.
  - case_bool_decide; simpl; [done|]. by rewrite app_nil_r.
  - by rewrite app_nil_r.
Qed.

Lemma for_each_filter_model providers model_list : ∀ available_models,
  for_each (filter_model get_llm_provider providers)
    available_models model_list =
  Ok (available_models ++ (model_list ≫= emitted get_llm_provider providers)).
Proof.
  induction model_list as [|model model_list IH]; intros acc; simpl.
  - by rewrite app_nil_r.
  - rewrite filter_model_emitted. simpl. rewrite IH. by rewrite <- app_assoc.
Qed.

Lemma list_available_models_eq env model_list :
  list_available_models env model_list get_llm_provider =
  Ok (merge_sort String.le
        (selected env ++
         (model_list ≫= emitted get_llm_provider (available_providers env)))).
Proof.
  unfold list_available_models, selected.
  rewrite for_each_filter_model. unfold mbind, result_bind.
  rewrite app_nil_l.
  destruct (env !! "LITELLM_MODEL") as [current_model|]; [|done].
  by destruct (truthy (Some current_model)).
Qed.

Lemma emitted_not_inferable providers model :
  inferable get_llm_provider model = false →
  emitted get_llm_provider providers model = [].
Proof.
  unfold inferable, emitted. by destruct (get_llm_provider model).
Qed.

Lemma bind_emitted_filter providers model_list :
  filter (λ model, inferable get_llm_provider model) model_list
    ≫= emitted get_llm_provider providers =
  model_list ≫= emitted get_llm_provider providers.
Proof.
  induction model_list as [|model model_list IH]; [done|].
  destruct (inferable get_llm_provider model) eqn:E.
  - rewrite filter_cons_True by (by apply Is_true_true_2).
    by rewrite !bind_cons, IH.
  - rewrite filter_cons_False by (by apply Is_true_false_2).
    by rewrite bind_cons, emitted_not_inferable, IH.
Qed.

Lemma elem_of_emitted providers model x :
  x ∈ emitted get_llm_provider providers model ↔
  ∃ m provider key base,
    get_llm_provider model = Ok (m, provider, key, base) ∧
    provider ∈ providers ∧ x = provider +:+ "/" +:+ model.
Proof.
  unfold emitted.
  destruct (get_llm_provider model) as [[[[m provider] k] b]|e].
  - case_bool_decide.
    + rewrite list_elem_of_singleton. naive_solver.
    + rewrite elem_of_nil. naive_solver.
  - rewrite elem_of_nil. naive_solver.
Qed.
End catalog.

(** Claim C4.  For every environment, every catalog and every behaviour of
    the provider inference, [list_available_models] returns a list that is
    sorted in ascending lexicographic order: each element is below or equal
    to every element after it. *)
Theorem list_available_models_sorted (env : gmap string string)
    (model_list : list string)
    (get_llm_provider : string → result provider_info) :
  ∃ available_models,
    list_available_models env model_list get_llm_provider = Ok available_models ∧
    StronglySorted String.le available_models ∧
    ∀ i j x y, i ≤ j →
      available_models !! i = Some x → available_models !! j = Some y →
      String.leb x y = true.
Proof.
  rewrite list_available_models_eq. eexists. split; [done|].
  assert (Hsorted : StronglySorted String.le
    (merge_sort String.le
       (selected env ++
        (model_list ≫= emitted get_llm_provider (available_providers env)))))
    by apply (StronglySorted_merge_sort _).
  split; [done|].
  revert Hsorted. generalize (merge_sort String.le
    (selected env ++
     (model_list ≫= emitted get_llm_provider (available_providers env)))).
  intros l Hsorted. induction Hsorted as [|a l Hl IH Hall]; intros i j x y Hij Hi Hj.
  - by rewrite lookup_nil in Hi.
  - destruct i as [|i], j as [|j]; simpl in *; simplify_eq.
    + apply Is_true_true. apply (reflexivity (R := String.le)).
    + apply Is_true_true. rewrite Forall_forall in Hall.
      apply Hall. by eapply list_elem_of_lookup_2.
    + lia.
    + apply (IH i j); [lia|done..].
Qed.

(** Claim C5.  When [LITELLM_MODEL] is set to a non-empty value, that value
    occurs in the list returned by [list_available_models], whatever the
    catalog holds and whichever providers are available. *)
Theorem selected_model_listed (env : gmap string string)
    (model_list : list string)
    (get_llm_provider : string → result provider_info) (V : string) :
  env !! "LITELLM_MODEL" = Some V →
  V ≠ "" →
  ∃ available_models,
    list_available_models env model_list get_llm_provider = Ok available_models ∧
    V ∈ available_models.
Proof.
  intros Hset Hne. rewrite list_available_models_eq. eexists. split; [done|].
  rewrite merge_sort_Permutation. unfold selected. rewrite Hset. simpl.
  rewrite bool_decide_eq_true_2 by done. set_solver.
Qed.

Lemma selected_model_listed_witness :
  ∃ available_models,
    list_available_models {[ "LITELLM_MODEL" := "local/llama" ]}
      ["gpt-4"; "claude-3"] (λ _, Raise (Exception "unmapped"))
      = Ok available_models ∧
    "local/llama" ∈ available_models.
Proof.
  apply (selected_model_listed _ _ _ "local/llama").
  - by vm_compute.
  - discriminate.
Defined.

(** Claim C6.  [list_available_models] returns a list for every catalog and
    every behaviour of the provider inference: it never raises.  An entry on
    which the inference raises is skipped without a trace: the result is the
    one obtained from the catalog with such entries taken out, whether all of
    them or any single one, so the other entries are processed as if the
    failing entry were not there; and every element of the result is either
    the value of [LITELLM_MODEL] or [provider/model] for a catalog entry whose
    provider was inferred and is available. *)
Theorem unresolvable_entries_skipped (env : gmap string string)
    (model_list : list string)
    (get_llm_provider : string → result provider_info) :
  (∃ available_models,
     list_available_models env model_list get_llm_provider
       = Ok available_models ∧
     ∀ x, x ∈ available_models →
       (env !! "LITELLM_MODEL" = Some x ∧ x ≠ "") ∨
       ∃ model m provider key base,
         model ∈ model_list ∧
         get_llm_provider model = Ok (m, provider, key, base) ∧
         provider ∈ available_providers env ∧
         x = provider +:+ "/" +:+ model) ∧
  list_available_models env model_list get_llm_provider =
    list_available_models env
      (filter (λ model, inferable get_llm_provider model) model_list)
      get_llm_provider ∧
  (∀ before model after e,
     model_list = before ++ model :: after →
     get_llm_provider model = Raise e →
     list_available_models env model_list get_llm_provider =
       list_available_models env (before ++ after) get_llm_provider).
Proof.
  split_and!.
  - rewrite list_available_models_eq. eexists. split; [done|].
    intros x. rewrite merge_sort_Permutation, elem_of_app. intros [Hx|Hx].
    + left. unfold selected in Hx.
      destruct (env !! "LITELLM_MODEL") as [current|]; simpl in Hx;
        [|by apply elem_of_nil in Hx].
      case_bool_decide; [|by apply elem_of_nil in Hx].
      by apply list_elem_of_singleton in Hx as ->.
    + right. apply list_elem_of_bind in Hx as (model & Hx & Hmodel).
      apply elem_of_emitted in Hx as (m & provider & key & base & ? & ? & ?).
      by exists model, m, provider, key, base.
  - by rewrite !list_available_models_eq, bind_emitted_filter.
  - intros before model after e -> Hraise.
    rewrite !list_available_models_eq, !bind_app, bind_cons.
    rewrite emitted_not_inferable; [done|].
    unfold inferable. by rewrite Hraise.
Qed.

Lemma unresolvable_entries_skipped_witness :
  let env : gmap string string := {[ "OPENAI_API_KEY" := "sk" ]} in
  let get_llm_provider (model : string) : result provider_info :=
    if bool_decide (model = "gpt-4") then Ok (model, "openai", None, None)
    else Raise (Exception "LLM Provider NOT provided") in
  list_available_models env ["mystery"; "gpt-4"] get_llm_provider =
    list_available_models env ([] ++ ["gpt-4"]) get_llm_provider ∧
  list_available_models env ["mystery"; "gpt-4"] get_llm_provider =
    Ok ["openai/gpt-4"].
Proof.
  cbv zeta. split; [|by vm_compute].
  eapply (unresolvable_entries_skipped _ ["mystery"; "gpt-4"]).
  - reflexivity.
  - by vm_compute.
Defined.

(* ===================================================================== *)
(** ** The completion invoker *)
(* ===================================================================== *)

Section invoker.
Context (completion : kwargs → result value) (env : gmap string string).
Context (role_title role_description context task : string).
Context (model : option string) (temperature : option float).

(** No model: the tool raises before anything else happens. *)
Lemma ask_the_voice_unresolved log :
truthy (py_or model (env !! "LITELLM_MODEL")) = false →
ask_the_voice completion env role_title role_description context task
  model temperature log
= (Raise (ToolError missing_model_message), log).
Proof.
intros Hfalsy. unfold ask_the_voice. by rewrite Hfalsy.
Qed.

(** A model: one call is made, and its outcome decides the result. *)
Lemma ask_the_voice_resolved log :
truthy (py_or model (env !! "LITELLM_MODEL")) = true →
ask_the_voice completion env role_title role_description context task
  model temperature log
= (match
     completion
       (completion_params (py_or model (env !! "LITELLM_MODEL"))
          (prompt role_title role_description context task) temperature)
   with
   | Ok response =>
       try_except (extract_content response)
         is_AttributeError_or_IndexError
         (λ e, Raise
           (ToolError ("Unexpected response format: " +:+ str_exn e)))
   | Raise e => Raise (ToolError ("LLM request failed: " +:+ str_exn e))
   end,
   log ++
   [completion_params (py_or model (env !! "LITELLM_MODEL"))
      (prompt role_title role_description context task) temperature]).
Proof.
intros Htruthy. unfold ask_the_voice. rewrite Htruthy. cbn [negb].
unfold mbind, io_bind, try_except_io, call, lift, try_except.
destruct (completion _) as [response|e]; cbn [is_Exception].
- destruct (extract_content response) as [content|e]; [done|].
  by destruct (is_AttributeError_or_IndexError e).
- done.
Qed.
End invoker.

Lemma py_or_absent (fallback : option string) :
  py_or None fallback = fallback.
Proof. done. Qed.

Lemma py_or_empty (fallback : option string) :
  py_or (Some "") fallback = fallback.
Proof. done. Qed.

(** Claim C3.  A call of [ask_the_voice] without a model argument, in an
    environment where [LITELLM_MODEL] is not set, raises the configuration
    error; the log of the calls made to [completion] is left as it was, so
    the completion is not invoked. *)
Theorem no_model_raises_before_completion
    (completion : kwargs → result value) (env : gmap string string)
    (role_title role_description context task : string)
    (temperature : option float) (log : list kwargs) :
  env !! "LITELLM_MODEL" = None →
  ask_the_voice completion env role_title role_description context task
    None temperature log
  = (Raise (ToolError
      "Missing environment variable: LITELLM_MODEL and no model parameter provided"),
     log).
Proof.
  intros Hunset. apply ask_the_voice_unresolved.
  by rewrite py_or_absent, Hunset.
Qed.

Lemma no_model_raises_before_completion_witness :
  ask_the_voice (λ _, Ok (VStr "never used")) {[ "OPENAI_API_KEY" := "sk" ]}
    "The Security Architect" "X" "Y" "Z" None (Some 0.5%float) []
  = (Raise (ToolError
      "Missing environment variable: LITELLM_MODEL and no model parameter provided"),
     []).
Proof.
  apply (no_model_raises_before_completion _ {[ "OPENAI_API_KEY" := "sk" ]}).
  by vm_compute.
Defined.

Lemma completion_params_temperature (selected_model : option string)
    (system_prompt : string) (temperature : option float) :
  completion_params selected_model system_prompt temperature !! "temperature"
  = VFloat <$> temperature.
Proof.
  unfold completion_params. destruct temperature as [t|]; simpl.
  - by rewrite lookup_insert_eq.
  - reflexivity.
Qed.

(** Claim C7.  In every call of [ask_the_voice], the calls made to
    [completion] are none when no model is resolved and exactly one
    otherwise, and the keyword arguments of such a call hold the key
    [temperature] if and only if the caller supplied a temperature: a
    supplied value is passed as it is (zero included), and without one the
    key is absent from the arguments, not bound to [None] or to a number. *)
Theorem temperature_key_iff_supplied
    (completion : kwargs → result value) (env : gmap string string)
    (role_title role_description context task : string)
    (model : option string) (temperature : option float)
    (log : list kwargs) :
  ∃ calls,
    (ask_the_voice completion env role_title role_description context task
       model temperature log).2 = log ++ calls ∧
    length calls =
      (if truthy (py_or model (env !! "LITELLM_MODEL")) then 1 else 0) ∧
    ∀ params, params ∈ calls →
      params !! "temperature" = VFloat <$> temperature ∧
      (is_Some (params !! "temperature") ↔ is_Some temperature).
Proof.
  destruct (truthy (py_or model (env !! "LITELLM_MODEL"))) eqn:Hmodel.
  - rewrite ask_the_voice_resolved by done. eexists [_]. split_and!; [done..|].
    intros params ->%list_elem_of_singleton.
    rewrite completion_params_temperature. split; [done|].
    by rewrite fmap_is_Some.
  - rewrite ask_the_voice_unresolved by done. exists []. split_and!.
    + by rewrite app_nil_r.
    + done.
    + by intros params ?%elem_of_nil.
Qed.

Lemma temperature_key_iff_supplied_witness :
  let completion_params : kwargs := {[
    "model" := VStr "openai/gpt-4";
    "messages" := VList
      [ VDict {[ "role" := VStr "system";
                 "content" := VStr (prompt "The Security Architect" "X" "Y" "Z") ]};
        VDict {[ "role" := VStr "user";
                 "content" :=
                   VStr "Please respond based on the above instructions." ]} ]
  ]} in
  (<["temperature" := VFloat 0%float]> completion_params) !! "temperature"
    = Some (VFloat 0%float) ∧
  completion_params !! "temperature" = None ∧
  (ask_the_voice (λ _, Raise (Exception "timeout")) ∅
     "The Security Architect" "X" "Y" "Z" (Some "openai/gpt-4") (Some 0%float) []).2
    = [<["temperature" := VFloat 0%float]> completion_params] ∧
  (ask_the_voice (λ _, Raise (Exception "timeout")) ∅
     "The Security Architect" "X" "Y" "Z" (Some "openai/gpt-4") None []).2
    = [completion_params].
Proof.
  cbv zeta.
  destruct (temperature_key_iff_supplied (λ _, Raise (Exception "timeout")) ∅
    "The Security Architect" "X" "Y" "Z" (Some "openai/gpt-4") (Some 0%float) [])
    as (calls & Hlog & _ & Hcalls).
  destruct (temperature_key_iff_supplied (λ _, Raise (Exception "timeout")) ∅
    "The Security Architect" "X" "Y" "Z" (Some "openai/gpt-4") None [])
    as (calls' & Hlog' & _ & Hcalls').
  split_and!.
  - apply (Hcalls _). rewrite <- (app_nil_l calls), <- Hlog. by left.
  - apply (Hcalls' _). rewrite <- (app_nil_l calls'), <- Hlog'. by left.
  - reflexivity.
  - reflexivity.
Defined.

(** *** Extracting the reply *)

Lemma extract_content_found (response content : value) :
  reply_content response = Some content →
  extract_content response =
    Ok (match content with
        | VNone => VStr ""
        | _ => content
        end).
Proof.
  unfold reply_content, extract_content, getattr.
  destruct (attribute response "choices") as [choices|]; [|done].
  destruct choices as [| | |[|first rest]| |]; try done. simpl.
  destruct (attribute first "message") as [message|]; [|done]. simpl.
  destruct (attribute message "content") as [found|]; [|done]. simpl.
  by intros [= ->].
Qed.

(** Without a reply on the path, a [choices] that is absent or a sequence
    makes the access fail with one of the two exceptions the handler names. *)
Lemma extract_content_caught (response : value) :
  reply_content response = None →
  (∀ choices, attribute response "choices" = Some choices →
     is_sequence choices = true) →
  ∃ e, extract_content response = Raise e ∧
       is_AttributeError_or_IndexError e = true.
Proof.
  unfold reply_content, extract_content, getattr. intros Hnone Hseq.
  destruct (attribute response "choices") as [choices|]; simpl in *;
    [|by eexists].
  specialize (Hseq choices eq_refl).
  destruct choices as [|[|c s]|x|[|first rest]|entries|cls attrs];
    try done; simpl in *; try (by eexists).
  destruct (attribute first "message") as [message|]; simpl in *;
    [|by eexists].
  destruct (attribute message "content") as [content|]; simpl in *;
    [done|by eexists].
Qed.

(** Claim C8, at a response it covers and the code does not normalise.  The
    response has a [choices] attribute that is [None], so no first choice and
    no reply: the path is lacking.  [ask_the_voice] then raises the
    [TypeError] of the failed indexing, which is not the [ToolError]
    "Unexpected response format: ...": the handler around the extraction
    names [AttributeError] and [IndexError] only, while the docstring
    promises a [ToolError] for malformed responses. *)
Lemma null_choices_raise_TypeError :
  let response : value := VObj "ModelResponse" {[ "choices" := VNone ]} in
  let outcome : result value :=
    (ask_the_voice (λ _, Ok response) ∅
       "The Security Architect" "X" "Y" "Z" (Some "openai/gpt-4") None []).1 in
  reply_content response = None ∧
  outcome = Raise (TypeError "'NoneType' object is not subscriptable") ∧
  ∀ detail,
    outcome ≠ Raise (ToolError ("Unexpected response format: " +:+ detail)).
Proof. cbv zeta. split_and!; [reflexivity..|]. intros detail. discriminate. Qed.

(** Property X18.  Once a model is resolved and [completion] has returned a
    response: if the response has a first choice with a message that has a
    content, [ask_the_voice] returns that content, and the empty string when
    the content is [None]; if there is no such content and the [choices]
    attribute is absent, a list or a string, it raises the [ToolError] whose
    text starts with "Unexpected response format: ", not the exception raised
    by the failed access. *)
Theorem reply_or_format_error
    (completion : kwargs → result value) (env : gmap string string)
    (role_title role_description context task : string)
    (model : option string) (temperature : option float)
    (log : list kwargs) (response : value) :
  truthy (py_or model (env !! "LITELLM_MODEL")) = true →
  completion
    (completion_params (py_or model (env !! "LITELLM_MODEL"))
       (prompt role_title role_description context task) temperature)
    = Ok response →
  (∀ content, reply_content response = Some content →
     (ask_the_voice completion env role_title role_description context task
        model temperature log).1
     = Ok (match content with
           | VNone => VStr ""
           | _ => content
           end)) ∧
  (reply_content response = None →
   (∀ choices, attribute response "choices" = Some choices →
      is_sequence choices = true) →
   ∃ detail,
     (ask_the_voice completion env role_title role_description context task
        model temperature log).1
     = Raise (ToolError ("Unexpected response format: " +:+ detail))).
Proof.
  intros Hmodel Hresponse.
  rewrite ask_the_voice_resolved by done. rewrite Hresponse.
  cbn [fst]. split.
  - intros content Hfound. by rewrite (extract_content_found _ _ Hfound).
  - intros Hnone Hseq.
    destruct (extract_content_caught _ Hnone Hseq) as (e & -> & Hcaught).
    exists (str_exn e). unfold try_except. by rewrite Hcaught.
Qed.

Lemma reply_or_format_error_witness :
  let message (content : value) : value :=
    VObj "Message" {[ "role" := VStr "assistant"; "content" := content ]} in
  let response (choices : list value) : value :=
    VObj "ModelResponse" {[ "choices" := VList choices ]} in
  let choice (content : value) : value :=
    VObj "Choices" {[ "index" := VStr "0"; "message" := message content ]} in
  let ask (response : value) : result value :=
    (ask_the_voice (λ _, Ok response) ∅ "The Security Architect" "X" "Y" "Z"
       (Some "openai/gpt-4") None []).1 in
  ask (response [choice (VStr "Looks good."); choice (VStr "second")])
    = Ok (VStr "Looks good.") ∧
  ask (response [choice VNone]) = Ok (VStr "") ∧
  ∃ detail,
    ask (response [])
    = Raise (ToolError ("Unexpected response format: " +:+ detail)).
Proof.
  cbv zeta. split_and!.
  - refine (proj1 (reply_or_format_error (λ _, Ok _) ∅
              "The Security Architect" "X" "Y" "Z" (Some "openai/gpt-4") None [] _
              eq_refl eq_refl) (VStr "Looks good.") _).
    reflexivity.
  - refine (proj1 (reply_or_format_error (λ _, Ok _) ∅
              "The Security Architect" "X" "Y" "Z" (Some "openai/gpt-4") None [] _
              eq_refl eq_refl) VNone _).
    reflexivity.
  - refine (proj2 (reply_or_format_error (λ _, Ok _) ∅
              "The Security Architect" "X" "Y" "Z" (Some "openai/gpt-4") None [] _
              eq_refl eq_refl) _ _).
    + reflexivity.
    + by intros choices [= <-].
Defined.

(* ===================================================================== *)
(** ** The persona prompt compiler *)
(* ===================================================================== *)

Lemma string_app_assoc (s1 s2 s3 : string) :
  (s1 +:+ s2) +:+ s3 = s1 +:+ (s2 +:+ s3).
Proof.
  induction s1 as [|a s1 IH]; [done|].
  change (String a ((s1 +:+ s2) +:+ s3) = String a (s1 +:+ (s2 +:+ s3))).
  by rewrite IH.
Qed.

Lemma string_app_nil_r (s : string) : s +:+ "" = s.
Proof.
  induction s as [|a s IH]; [done|].
  change (String a (s +:+ "") = String a s). by rewrite IH.
Qed.

Ltac string_eq :=
  unfold prompt; rewrite ?string_app_assoc, ?string_app_nil_r; reflexivity.

(** Claim C9.  For all four texts, empty ones included, [prompt] yields one
    string (it is a function, defined on every input): the line that quotes
    the role title, then the role description under its header, the context
    under its header and the task under its header, each text unchanged.
    These four parts occur in the prompt in this order, and the prompt is the
    content of the system message handed to [completion]. *)
Theorem prompt_layout (role_title role_description context task : string) :
  prompt role_title role_description context task =
    "You are '" +:+ role_title +:+ "'" +:+ NL +:+ NL +:+
    "# Role Description" +:+ NL +:+ NL +:+ role_description +:+ NL +:+ NL +:+
    "# Context" +:+ NL +:+ NL +:+ context +:+ NL +:+ NL +:+
    "# Task" +:+ NL +:+ NL +:+ task ∧
  occur_in_order
    [ "You are '" +:+ role_title +:+ "'" +:+ NL;
      "# Role Description" +:+ NL +:+ NL +:+ role_description +:+ NL;
      "# Context" +:+ NL +:+ NL +:+ context +:+ NL;
      "# Task" +:+ NL +:+ NL +:+ task ]
    (prompt role_title role_description context task) ∧
  ∀ selected_model temperature,
    completion_params selected_model
      (prompt role_title role_description context task) temperature
      !! "messages"
    = Some (VList
        [ VDict {[ "role" := VStr "system";
                   "content" :=
                     VStr (prompt role_title role_description context task) ]};
          VDict {[ "role" := VStr "user";
                   "content" :=
                     VStr "Please respond based on the above instructions." ]}
        ]).
Proof.
  split_and!.
  - string_eq.
  - exists "", (NL +:+ "# Role Description" +:+ NL +:+ NL +:+
                role_description +:+ NL +:+ NL +:+
                "# Context" +:+ NL +:+ NL +:+ context +:+ NL +:+ NL +:+
                "# Task" +:+ NL +:+ NL +:+ task).
    split; [string_eq|].
    exists NL, (NL +:+ "# Context" +:+ NL +:+ NL +:+ context +:+ NL +:+ NL +:+
                "# Task" +:+ NL +:+ NL +:+ task).
    split; [string_eq|].
    exists NL, (NL +:+ "# Task" +:+ NL +:+ NL +:+ task).
    split; [string_eq|].
    exists NL, "". split; [string_eq|done].
  - intros selected_model [t|]; reflexivity.
Qed.

(** The prompt of a one-letter scenario, and the prompt of four empty texts. *)
Lemma prompt_layout_witness :
  prompt "The Reviewer" "X" "Y" "Z" =
    "You are 'The Reviewer'" +:+ NL +:+ NL +:+
    "# Role Description" +:+ NL +:+ NL +:+ "X" +:+ NL +:+ NL +:+
    "# Context" +:+ NL +:+ NL +:+ "Y" +:+ NL +:+ NL +:+
    "# Task" +:+ NL +:+ NL +:+ "Z" ∧
  prompt "" "" "" "" =
    "You are ''" +:+ NL +:+ NL +:+ "# Role Description" +:+ NL +:+ NL +:+
    NL +:+ NL +:+ "# Context" +:+ NL +:+ NL +:+ NL +:+ NL +:+
    "# Task" +:+ NL +:+ NL.
Proof.
  split.
  - apply (prompt_layout "The Reviewer" "X" "Y" "Z").
  - apply (prompt_layout "" "" "" "").
Defined.

(* ===================================================================== *)
(** ** The model argument *)
(* ===================================================================== *)

(** Claim C10.  An empty string as model argument is treated as no argument:
    the two calls of [ask_the_voice] end alike, result and calls made.  The
    model then comes from [LITELLM_MODEL]: when the variable is unset or
    empty the configuration error is raised and [completion] is not called;
    when it holds a non-empty value, that value is the model the call to
    [completion] names. *)
Theorem empty_model_argument_is_absent
    (completion : kwargs → result value) (env : gmap string string)
    (role_title role_description context task : string)
    (temperature : option float) (log : list kwargs) :
  ask_the_voice completion env role_title role_description context task
    (Some "") temperature log
  = ask_the_voice completion env role_title role_description context task
      None temperature log ∧
  (env !! "LITELLM_MODEL" = None ∨ env !! "LITELLM_MODEL" = Some "" →
   ask_the_voice completion env role_title role_description context task
     (Some "") temperature log
   = (Raise (ToolError
       "Missing environment variable: LITELLM_MODEL and no model parameter provided"),
      log)) ∧
  (∀ V, env !! "LITELLM_MODEL" = Some V → V ≠ "" →
   (ask_the_voice completion env role_title role_description context task
      (Some "") temperature log).2
   = log ++
     [completion_params (Some V)
        (prompt role_title role_description context task) temperature]).
Proof.
  split_and!.
  - reflexivity.
  - intros Hfalsy. apply ask_the_voice_unresolved. rewrite py_or_empty.
    by destruct Hfalsy as [-> | ->].
  - intros V Hset Hne.
    rewrite ask_the_voice_resolved; rewrite py_or_empty, Hset; [done|].
    simpl. by rewrite bool_decide_eq_true_2.
Qed.

Lemma empty_model_argument_is_absent_witness :
  let reply : value :=
    VObj "ModelResponse" {[ "choices" := VList
      [ VObj "Choices" {[ "message" :=
          VObj "Message" {[ "content" := VStr "ok" ]} ]} ] ]} in
  ask_the_voice (λ _, Ok reply) {[ "LITELLM_MODEL" := "" ]}
    "The Security Architect" "X" "Y" "Z" (Some "") None []
  = (Raise (ToolError
      "Missing environment variable: LITELLM_MODEL and no model parameter provided"),
     []) ∧
  (ask_the_voice (λ _, Ok reply) {[ "LITELLM_MODEL" := "openai/gpt-4" ]}
     "The Security Architect" "X" "Y" "Z" (Some "") None []).2
  = [completion_params (Some "openai/gpt-4")
       (prompt "The Security Architect" "X" "Y" "Z") None].
Proof.
  cbv zeta. split.
  - refine (proj1 (proj2 (empty_model_argument_is_absent (λ _, Ok _)
              {[ "LITELLM_MODEL" := "" ]} "The Security Architect" "X" "Y" "Z" None []))
              _).
    right. reflexivity.
  - refine (proj2 (proj2 (empty_model_argument_is_absent (λ _, Ok _)
              {[ "LITELLM_MODEL" := "openai/gpt-4" ]}
              "The Security Architect" "X" "Y" "Z" None [])) "openai/gpt-4" _ _).
    + reflexivity.
    + discriminate.
Defined.

(* ===================================================================== *)
(** ** Further properties of the resolver *)
(* ===================================================================== *)

Lemma elem_of_credential_variables provider keys key :
  (provider, keys) ∈ provider_key_mapping → key ∈ names keys →
  key ∈ credential_variables.
Proof.
  intros Hin Hkey. unfold credential_variables.
  apply list_elem_of_bind. by exists (provider, keys).
Qed.

Lemma requirement_met_impl env env' keys :
  (∀ key, key ∈ names keys → is_set env key → is_set env' key) →
  requirement_met env keys → requirement_met env' keys.
Proof.
  rewrite !requirement_met_names, !Forall_forall. intros Himpl Hall key Hkey.
  by apply Himpl, Hall.
Qed.

Lemma available_providers_impl env env' :
  (∀ key, key ∈ credential_variables → is_set env key → is_set env' key) →
  available_providers env ⊆ available_providers env'.
Proof.
  intros Himpl provider. unfold available_providers.
  rewrite !elem_of_resolve_providers. intros (keys & Hin & Hmet).
  exists keys. split; [done|].
  apply (requirement_met_impl env); [|done].
  intros key Hkey. by apply Himpl, (elem_of_credential_variables provider keys).
Qed.

Lemma available_providers_agree env env' :
  (∀ key, key ∈ credential_variables → env !! key = env' !! key) →
  available_providers env = available_providers env'.
Proof.
  intros Hagree. apply set_eq. intros provider. split.
  - apply available_providers_impl. intros key Hkey.
    unfold is_set. by rewrite (Hagree key Hkey).
  - apply available_providers_impl. intros key Hkey.
    unfold is_set. by rewrite (Hagree key Hkey).
Qed.

Lemma merge_sort_Permutation_eq (l l' : list string) :
  l ≡ₚ l' → merge_sort String.le l = merge_sort String.le l'.
Proof.
  intros Hperm. apply (StronglySorted_unique String.le).
  - apply (StronglySorted_merge_sort _).
  - apply (StronglySorted_merge_sort _).
  - by rewrite !merge_sort_Permutation.
Qed.

Lemma selected_agree env env' :
  env !! "LITELLM_MODEL" = env' !! "LITELLM_MODEL" →
  selected env = selected env'.
Proof. unfold selected. by intros ->. Qed.

Lemma emitted_subseteq get_llm_provider (providers providers' : gset string)
    model x :
  providers ⊆ providers' →
  x ∈ emitted get_llm_provider providers model →
  x ∈ emitted get_llm_provider providers' model.
Proof.
  intros Hsub. rewrite !elem_of_emitted.
  intros (m & provider & key & base & ? & ? & ?).
  exists m, provider, key, base. split_and!; [done| |done]. by apply Hsub.
Qed.

(** Property X1.  Setting further environment variables never takes
    anything away: when every binding of [env] is also a binding of [env'],
    every provider available under [env] is available under [env'], and
    every model listed under [env] is listed under [env']. *)
Theorem further_variables_keep_listing (env env' : gmap string string)
    (model_list : list string)
    (get_llm_provider : string → result provider_info) :
  env ⊆ env' →
  available_providers env ⊆ available_providers env' ∧
  ∃ available_models available_models',
    list_available_models env model_list get_llm_provider
      = Ok available_models ∧
    list_available_models env' model_list get_llm_provider
      = Ok available_models' ∧
    ∀ x, x ∈ available_models → x ∈ available_models'.
Proof.
  intros Hsub.
  assert (Hproviders : available_providers env ⊆ available_providers env').
  { apply available_providers_impl. intros key _ (v & Hv & Hne).
    exists v. split; [|done]. by apply (lookup_weaken env). }
  split; [done|]. rewrite !list_available_models_eq.
  eexists _, _. split_and!; [done..|].
  intros x. rewrite !merge_sort_Permutation, !elem_of_app.
  intros [Hx|Hx]; [left|right].
  - unfold selected in *.
    destruct (env !! "LITELLM_MODEL") as [current|] eqn:Hcurrent;
      [|by apply elem_of_nil in Hx].
    by rewrite (lookup_weaken _ _ _ _ Hcurrent Hsub).
  - apply list_elem_of_bind in Hx as (model & Hx & Hmodel).
    apply list_elem_of_bind. exists model. split; [|done].
    by apply (emitted_subseteq _ _ _ _ _ Hproviders).
Qed.

Lemma further_variables_keep_listing_witness :
  let env : gmap string string := {[ "OPENAI_API_KEY" := "sk" ]} in
  let env' := <["ANTHROPIC_API_KEY" := "key"]> env in
  let get_llm_provider (model : string) : result provider_info :=
    if bool_decide (model = "gpt-4") then Ok (model, "openai", None, None)
    else Ok (model, "anthropic", None, None) in
  available_providers env ⊆ available_providers env' ∧
  ∃ available_models available_models',
    list_available_models env ["gpt-4"; "claude-3"] get_llm_provider
      = Ok available_models ∧
    list_available_models env' ["gpt-4"; "claude-3"] get_llm_provider
      = Ok available_models' ∧
    ∀ x, x ∈ available_models → x ∈ available_models'.
Proof.
  cbv zeta. apply further_variables_keep_listing.
  apply insert_subseteq. reflexivity.
Defined.

(** Property X2.  [bedrock] and [sagemaker] are available together or not
    at all, in every environment: the table asks the same two AWS variables
    of both. *)
Theorem bedrock_iff_sagemaker (env : gmap string string) :
  "bedrock" ∈ available_providers env ↔ "sagemaker" ∈ available_providers env.
Proof.
  assert (Hbedrock :
    ("bedrock", Several ["AWS_ACCESS_KEY_ID"; "AWS_SECRET_ACCESS_KEY"])
      ∈ provider_key_mapping) by (apply (bool_decide_unpack _); by vm_compute).
  assert (Hsagemaker :
    ("sagemaker", Several ["AWS_ACCESS_KEY_ID"; "AWS_SECRET_ACCESS_KEY"])
      ∈ provider_key_mapping) by (apply (bool_decide_unpack _); by vm_compute).
  unfold available_providers. rewrite !elem_of_resolve_providers.
  split; intros (keys & Hin & Hmet).
  - rewrite (provider_key_mapping_functional _ _ _ Hin Hbedrock) in Hmet.
    by eexists.
  - rewrite (provider_key_mapping_functional _ _ _ Hin Hsagemaker) in Hmet.
    by eexists.
Qed.

(** Property X3.  The listing depends on the environment only through the
    credential variables named in the table and [LITELLM_MODEL]: two
    environments that agree on these variables give the same result, whatever
    else they hold. *)
Theorem listing_reads_credentials_and_selection
    (env env' : gmap string string) (model_list : list string)
    (get_llm_provider : string → result provider_info) :
  (∀ key, key ∈ "LITELLM_MODEL" :: credential_variables →
     env !! key = env' !! key) →
  list_available_models env model_list get_llm_provider =
  list_available_models env' model_list get_llm_provider.
Proof.
  intros Hagree. rewrite !list_available_models_eq.
  rewrite (available_providers_agree env env').
  - rewrite (selected_agree env env'); [done|]. apply Hagree. by left.
  - intros key Hkey. apply Hagree. by right.
Qed.

Lemma listing_reads_credentials_and_selection_witness :
  let get_llm_provider (model : string) : result provider_info :=
    Ok (model, "openai", None, None) in
  list_available_models
    {[ "OPENAI_API_KEY" := "sk"; "HOME" := "/root" ]}
    ["gpt-4"] get_llm_provider =
  list_available_models
    {[ "OPENAI_API_KEY" := "sk"; "GROQ_API_KEY" := "gsk" ]}
    ["gpt-4"] get_llm_provider.
Proof.
  cbv zeta. apply listing_reads_credentials_and_selection.
  apply Forall_forall. apply (bool_decide_unpack _). by vm_compute.
Defined.

(* ===================================================================== *)
(** ** Further properties of the catalog filter *)
(* ===================================================================== *)

Lemma available_providers_in_table env provider :
  provider ∈ available_providers env → provider ∈ provider_key_mapping.*1.
Proof.
  unfold available_providers. rewrite elem_of_resolve_providers.
  intros (keys & Hin & _). apply list_elem_of_fmap. by exists (provider, keys).
Qed.

Lemma emitted_unavailable get_llm_provider (providers : gset string)
    model m provider key base :
  get_llm_provider model = Ok (m, provider, key, base) →
  provider ∉ providers →
  emitted get_llm_provider providers model = [].
Proof.
  intros Hinfer Hnot. unfold emitted. rewrite Hinfer.
  by rewrite bool_decide_eq_false_2.
Qed.

(** Property X4.  A catalog entry whose inferred provider is not one of the
    providers of the table is never listed, whatever the environment holds:
    the result is the one obtained without the entry. *)
Theorem provider_outside_table_dropped (env : gmap string string)
    (get_llm_provider : string → result provider_info)
    (before after : list string) (model m provider : string)
    (key base : option string) :
  get_llm_provider model = Ok (m, provider, key, base) →
  provider ∉ provider_key_mapping.*1 →
  list_available_models env (before ++ model :: after) get_llm_provider =
  list_available_models env (before ++ after) get_llm_provider.
Proof.
  intros Hinfer Hnot. rewrite !list_available_models_eq, !bind_app, bind_cons.
  rewrite (emitted_unavailable _ _ _ _ _ _ _ Hinfer); [done|].
  intros Havail. by apply Hnot, (available_providers_in_table env).
Qed.

Lemma provider_outside_table_dropped_witness :
  let env : gmap string string :=
    {[ "GROQ_API_KEY" := "gsk"; "OPENAI_API_KEY" := "sk" ]} in
  let get_llm_provider (model : string) : result provider_info :=
    if bool_decide (model = "gpt-4") then Ok (model, "openai", None, None)
    else Ok (model, "groq", Some "gsk", None) in
  list_available_models env (["gpt-4"] ++ "llama3-70b" :: []) get_llm_provider
  = list_available_models env (["gpt-4"] ++ []) get_llm_provider.
Proof.
  cbv zeta.
  apply (provider_outside_table_dropped _ _ _ _ _ "llama3-70b" "groq"
           (Some "gsk") None).
  - reflexivity.
  - apply (bool_decide_unpack _). by vm_compute.
Defined.

(** Property X5.  The order of the catalog does not show in the result:
    catalogs that hold the same entries the same number of times give the
    same list. *)
Theorem catalog_order_irrelevant (env : gmap string string)
    (get_llm_provider : string → result provider_info)
    (model_list model_list' : list string) :
  model_list ≡ₚ model_list' →
  list_available_models env model_list get_llm_provider =
  list_available_models env model_list' get_llm_provider.
Proof.
  intros Hperm. rewrite !list_available_models_eq. f_equal.
  apply merge_sort_Permutation_eq. by rewrite Hperm.
Qed.

Lemma catalog_order_irrelevant_witness :
  let env : gmap string string :=
    {[ "OPENAI_API_KEY" := "sk"; "ANTHROPIC_API_KEY" := "key" ]} in
  let get_llm_provider (model : string) : result provider_info :=
    if bool_decide (model = "gpt-4") then Ok (model, "openai", None, None)
    else Ok (model, "anthropic", None, None) in
  list_available_models env ["gpt-4"; "claude-3"] get_llm_provider =
  list_available_models env ["claude-3"; "gpt-4"] get_llm_provider.
Proof.
  cbv zeta. apply catalog_order_irrelevant. apply Permutation_swap.
Defined.

Lemma length_bind_emitted get_llm_provider (providers : gset string)
    model_list :
  length (model_list ≫= emitted get_llm_provider providers) =
  length (filter (λ model, listed get_llm_provider providers model) model_list).
Proof.
  induction model_list as [|model model_list IH]; [done|].
  rewrite bind_cons, length_app, IH. unfold emitted, listed at 2.
  destruct (listed get_llm_provider providers model) eqn:Hlisted.
  - rewrite filter_cons_True by (by apply Is_true_true_2).
    unfold listed in Hlisted.
    destruct (get_llm_provider model) as [[[[m provider] key] base]|e];
      [|done].
    by rewrite Hlisted.
  - rewrite filter_cons_False by (by apply Is_true_false_2).
    unfold listed in Hlisted.
    destruct (get_llm_provider model) as [[[[m provider] key] base]|e];
      [|done].
    by rewrite Hlisted.
Qed.

(** Property X6.  Nothing is merged or dropped after the filter: the result
    has one element for each catalog entry whose provider is inferred and
    available, counted as often as the catalog repeats it, and one more when
    [LITELLM_MODEL] is set to a non-empty value, also when that value equals
    an entry already listed. *)
Theorem listing_length (env : gmap string string)
    (model_list : list string)
    (get_llm_provider : string → result provider_info) :
  ∃ available_models,
    list_available_models env model_list get_llm_provider
      = Ok available_models ∧
    length available_models =
      (if truthy (env !! "LITELLM_MODEL") then 1 else 0) +
      length (filter
        (λ model, listed get_llm_provider (available_providers env) model)
        model_list).
Proof.
  rewrite list_available_models_eq. eexists. split; [done|].
  rewrite merge_sort_Permutation, length_app, length_bind_emitted.
  f_equal. unfold selected.
  destruct (env !! "LITELLM_MODEL") as [current|]; [|done].
  by destruct (truthy (Some current)).
Qed.

(** Every entry of the table asks for at least one variable. *)
Lemma provider_key_mapping_names_nonempty :
  Forall (λ item : string * required_keys, names item.2 ≠ [])
    provider_key_mapping.
Proof. apply (bool_decide_unpack _). by vm_compute. Qed.

Lemma no_credentials_no_providers env :
  (∀ key, key ∈ credential_variables → ¬ is_set env key) →
  available_providers env = ∅.
Proof.
  intros Hnone. apply set_eq. intros provider. split; [|set_solver].
  unfold available_providers. rewrite elem_of_resolve_providers.
  intros (keys & Hin & Hmet). exfalso.
  pose proof provider_key_mapping_names_nonempty as Hnames.
  rewrite Forall_forall in Hnames. specialize (Hnames _ Hin). simpl in Hnames.
  apply requirement_met_names in Hmet.
  destruct (names keys) as [|key rest] eqn:Hkeys; [done|].
  apply Forall_cons in Hmet as [Hset _].
  apply (Hnone key); [|done].
  apply (elem_of_credential_variables provider keys); [done|].
  rewrite Hkeys. by left.
Qed.

Lemma bind_emitted_empty get_llm_provider model_list :
  model_list ≫= emitted get_llm_provider ∅ = [].
Proof.
  induction model_list as [|model model_list IH]; [done|].
  rewrite bind_cons, IH, app_nil_r. unfold emitted.
  destruct (get_llm_provider model) as [[[[m provider] key] base]|e]; [|done].
  by rewrite bool_decide_eq_false_2 by set_solver.
Qed.

(** Property X7.  With an empty catalog, or with none of the credential
    variables set, the result holds the value of [LITELLM_MODEL] when that is
    set to a non-empty value, and nothing else. *)
Theorem nothing_to_list (env : gmap string string)
    (model_list : list string)
    (get_llm_provider : string → result provider_info) :
  model_list = [] ∨
    (∀ key, key ∈ credential_variables → ¬ is_set env key) →
  list_available_models env model_list get_llm_provider =
    Ok (match env !! "LITELLM_MODEL" with
        | Some current_model =>
            if bool_decide (current_model ≠ "") then [current_model] else []
        | None => []
        end).
Proof.
  intros Hnothing. rewrite list_available_models_eq.
  assert (model_list ≫= emitted get_llm_provider (available_providers env)
          = []) as ->.
  { destruct Hnothing as [-> | Hnone]; [done|].
    rewrite (no_credentials_no_providers _ Hnone).
    apply bind_emitted_empty. }
  rewrite app_nil_r. unfold selected.
  destruct (env !! "LITELLM_MODEL") as [current|]; [|done]. simpl.
  by case_bool_decide.
Qed.

Lemma nothing_to_list_witness :
  list_available_models {[ "LITELLM_MODEL" := "ollama/llama3" ]}
    ["gpt-4"; "claude-3"] (λ model, Ok (model, "openai", None, None))
  = Ok ["ollama/llama3"] ∧
  list_available_models {[ "OPENAI_API_KEY" := "sk" ]} []
    (λ model, Ok (model, "openai", None, None))
  = Ok [].
Proof.
  split.
  - etrans.
    + apply (nothing_to_list {[ "LITELLM_MODEL" := "ollama/llama3" ]}).
      right. intros key Hkey. rewrite <- truthy_is_set. revert key Hkey.
      apply Forall_forall. apply (bool_decide_unpack _). by vm_compute.
    + reflexivity.
  - etrans.
    + apply (nothing_to_list {[ "OPENAI_API_KEY" := "sk" ]}). by left.
    + reflexivity.
Defined.

Lemma LITELLM_MODEL_not_credential :
  "LITELLM_MODEL" ∉ credential_variables.
Proof. apply (bool_decide_unpack _). by vm_compute. Qed.

Lemma available_providers_ignore_selection env (v : option string) :
  available_providers (partial_alter (λ _, v) "LITELLM_MODEL" env) =
  available_providers env.
Proof.
  apply available_providers_agree. intros key Hkey.
  apply lookup_partial_alter_ne. intros <-.
  by apply LITELLM_MODEL_not_credential.
Qed.

(** Property X8.  Inserting the selected model at index 0 does not keep it
    in front: the result with [LITELLM_MODEL] set to a non-empty value [V] is
    the result without the variable, with [V] added and sorted into its
    alphabetical place. *)
Theorem selected_model_sorted_in (env : gmap string string)
    (model_list : list string)
    (get_llm_provider : string → result provider_info) (V : string) :
  env !! "LITELLM_MODEL" = Some V →
  V ≠ "" →
  ∃ others,
    list_available_models (delete "LITELLM_MODEL" env) model_list
      get_llm_provider = Ok others ∧
    list_available_models env model_list get_llm_provider =
      Ok (merge_sort String.le (others ++ [V])).
Proof.
  intros Hset Hne. rewrite !list_available_models_eq.
  eexists. split; [done|]. f_equal.
  change (delete "LITELLM_MODEL" env)
    with (partial_alter (λ _, None) "LITELLM_MODEL" env).
  rewrite available_providers_ignore_selection.
  apply merge_sort_Permutation_eq. rewrite merge_sort_Permutation.
  unfold selected at 2. rewrite lookup_partial_alter_eq.
  unfold selected. rewrite Hset. simpl.
  rewrite bool_decide_eq_true_2 by done.
  simpl. by rewrite Permutation_cons_append.
Qed.

Lemma selected_model_sorted_in_witness :
  let env : gmap string string :=
    {[ "OPENAI_API_KEY" := "sk"; "LITELLM_MODEL" := "openai/gpt-4o" ]} in
  let get_llm_provider (model : string) : result provider_info :=
    Ok (model, "openai", None, None) in
  ∃ others,
    list_available_models (delete "LITELLM_MODEL" env) ["gpt-4"; "o1"]
      get_llm_provider = Ok others ∧
    list_available_models env ["gpt-4"; "o1"] get_llm_provider =
      Ok (merge_sort String.le (others ++ ["openai/gpt-4o"])).
Proof.
  cbv zeta. apply selected_model_sorted_in.
  - reflexivity.
  - discriminate.
Defined.

Lemma emitted_inferred_provider get_llm_provider get_llm_provider'
    (providers : gset string) model :
  inferred_provider get_llm_provider model =
    inferred_provider get_llm_provider' model →
  emitted get_llm_provider providers model =
    emitted get_llm_provider' providers model.
Proof.
  unfold inferred_provider, emitted.
  destruct (get_llm_provider model) as [[[[m provider] key] base]|e],
    (get_llm_provider' model) as [[[[m' provider'] key'] base']|e'];
    by intros [= ->] || done.
Qed.

(** Property X9.  Of the tuple returned by the provider inference only the
    provider is used: the listed name is built from the inferred provider and
    the catalog's own model string, so two inferences that fail on the same
    entries and agree on the provider elsewhere give the same result. *)
Theorem listing_uses_inferred_provider_only (env : gmap string string)
    (model_list : list string)
    (get_llm_provider get_llm_provider' : string → result provider_info) :
  (∀ model, model ∈ model_list →
     inferred_provider get_llm_provider model =
     inferred_provider get_llm_provider' model) →
  list_available_models env model_list get_llm_provider =
  list_available_models env model_list get_llm_provider'.
Proof.
  intros Hagree. rewrite !list_available_models_eq. do 3 f_equal.
  induction model_list as [|model model_list IH]; [done|].
  rewrite !bind_cons. f_equal.
  - apply emitted_inferred_provider, Hagree. by left.
  - apply IH. intros model' Hmodel'. apply Hagree. by right.
Qed.

Lemma listing_uses_inferred_provider_only_witness :
  list_available_models {[ "OPENAI_API_KEY" := "sk" ]} ["openai/gpt-4"]
    (λ model, Ok ("gpt-4", "openai", None, None)) =
  list_available_models {[ "OPENAI_API_KEY" := "sk" ]} ["openai/gpt-4"]
    (λ model, Ok (model, "openai", Some "sk", Some "https://api"))
  ∧
  list_available_models {[ "OPENAI_API_KEY" := "sk" ]} ["openai/gpt-4"]
    (λ model, Ok ("gpt-4", "openai", None, None))
  = Ok ["openai/openai/gpt-4"].
Proof.
  split; [|reflexivity].
  apply listing_uses_inferred_provider_only.
  intros model _. reflexivity.
Defined.

(** Property X10.  An empty [LITELLM_MODEL] counts as no selection: the
    result is the one obtained with the variable removed. *)
Theorem empty_selection_ignored (env : gmap string string)
    (model_list : list string)
    (get_llm_provider : string → result provider_info) :
  list_available_models (<["LITELLM_MODEL" := ""]> env) model_list
    get_llm_provider =
  list_available_models (delete "LITELLM_MODEL" env) model_list
    get_llm_provider.
Proof.
  rewrite !list_available_models_eq.
  change (<["LITELLM_MODEL" := ""]> env)
    with (partial_alter (λ _, Some "") "LITELLM_MODEL" env).
  change (delete "LITELLM_MODEL" env)
    with (partial_alter (λ _, None) "LITELLM_MODEL" env).
  rewrite !available_providers_ignore_selection.
  unfold selected. by rewrite !lookup_partial_alter_eq.
Qed.

Lemma string_app_nonempty (s1 s2 : string) (c : Ascii.ascii) :
  s1 +:+ String c s2 ≠ "".
Proof. by destruct s1. Qed.

(** Property X11.  The result never holds an empty string: an element is
    either the non-empty value of [LITELLM_MODEL] or a name of the form
    [provider/model], which contains the separator. *)
Theorem listing_has_no_empty_name (env : gmap string string)
    (model_list : list string)
    (get_llm_provider : string → result provider_info) :
  ∃ available_models,
    list_available_models env model_list get_llm_provider
      = Ok available_models ∧
    "" ∉ available_models.
Proof.
  rewrite list_available_models_eq. eexists. split; [done|].
  rewrite merge_sort_Permutation, elem_of_app. intros [Hin|Hin].
  - unfold selected in Hin.
    destruct (env !! "LITELLM_MODEL") as [current|];
      [|by apply elem_of_nil in Hin].
    simpl in Hin. case_bool_decide; [|by apply elem_of_nil in Hin].
    by apply list_elem_of_singleton in Hin.
  - apply list_elem_of_bind in Hin as (model & Hin & _).
    apply elem_of_emitted in Hin as (m & provider & key & base & _ & _ & Heq).
    symmetry in Heq. revert Heq.
    change ("/" +:+ model) with (String (Ascii.ascii_of_nat 47) model).
    apply string_app_nonempty.
Qed.

(* ===================================================================== *)
(** ** Further properties of the completion invoker *)
(* ===================================================================== *)

(** Property X12.  When a model is resolved and [completion] raises, for
    whatever reason, [ask_the_voice] raises a [ToolError] whose text is
    "LLM request failed: " followed by the text of the exception raised; the
    one call has been made and the response is not looked at. *)
Theorem request_failure_wrapped
    (completion : kwargs → result value) (env : gmap string string)
    (role_title role_description context task : string)
    (model : option string) (temperature : option float)
    (log : list kwargs) (e : exn) :
  truthy (py_or model (env !! "LITELLM_MODEL")) = true →
  completion
    (completion_params (py_or model (env !! "LITELLM_MODEL"))
       (prompt role_title role_description context task) temperature)
    = Raise e →
  ask_the_voice completion env role_title role_description context task
    model temperature log
  = (Raise (ToolError ("LLM request failed: " +:+ str_exn e)),
     log ++
     [completion_params (py_or model (env !! "LITELLM_MODEL"))
        (prompt role_title role_description context task) temperature]).
Proof.
  intros Hmodel Hraise. rewrite ask_the_voice_resolved by done.
  by rewrite Hraise.
Qed.

Lemma request_failure_wrapped_witness :
  (ask_the_voice (λ _, Raise (Exception "timeout")) ∅
     "The Security Architect" "X" "Y" "Z" (Some "openai/gpt-4") None []).1
  = Raise (ToolError "LLM request failed: timeout").
Proof.
  rewrite (request_failure_wrapped (λ _, Raise (Exception "timeout")) ∅
    "The Security Architect" "X" "Y" "Z" (Some "openai/gpt-4") None []
    (Exception "timeout")); reflexivity.
Defined.

Lemma extract_content_raises (response : value) (e : exn) :
  extract_content response = Raise e →
  is_AttributeError_or_IndexError e = true ∨
  ∃ choices,
    attribute response "choices" = Some choices ∧
    is_sequence choices = false ∧
    getitem0 choices = Raise e ∧
    is_AttributeError_or_IndexError e = false ∧
    ((∃ msg, e = TypeError msg) ∨ (∃ msg, e = KeyError msg)).
Proof.
  unfold extract_content, getattr.
  destruct (attribute response "choices") as [choices|]; simpl;
    [|intros [= <-]; by left].
  destruct choices as [|[|c s]|x|[|first rest]|entries|cls attrs]; simpl;
    try (intros [= <-]; by left);
    try (intros [= <-]; right; eexists; split_and!; try reflexivity;
         (left; by eexists) || (right; by eexists)).
  destruct (attribute first "message") as [message|]; simpl;
    [|intros [= <-]; by left].
  destruct (attribute message "content") as [content|]; simpl;
    [done|intros [= <-]; by left].
Qed.

(** Property X13.  An exception leaves [ask_the_voice] in one of four ways
    only.  No model is resolved: the [ToolError] of the missing model.
    [completion] raised: the [ToolError] "LLM request failed: " with the text
    of that exception, so an exception raised by [completion] never leaves as
    it is.  [completion] returned a response on which the access raised an
    [AttributeError] or an [IndexError]: the [ToolError] "Unexpected response
    format: " with its text, so neither leaves as it is.  [completion]
    returned a response whose [choices] is present and not a sequence: the
    [TypeError] or [KeyError] raised by indexing it. *)
Theorem exceptions_raised
    (completion : kwargs → result value) (env : gmap string string)
    (role_title role_description context task : string)
    (model : option string) (temperature : option float)
    (log : list kwargs) (e : exn) :
  (ask_the_voice completion env role_title role_description context task
     model temperature log).1 = Raise e →
  (truthy (py_or model (env !! "LITELLM_MODEL")) = false ∧
   e = ToolError
         "Missing environment variable: LITELLM_MODEL and no model parameter provided") ∨
  (truthy (py_or model (env !! "LITELLM_MODEL")) = true ∧
   ∃ cause,
     completion
       (completion_params (py_or model (env !! "LITELLM_MODEL"))
          (prompt role_title role_description context task) temperature)
       = Raise cause ∧
     e = ToolError ("LLM request failed: " +:+ str_exn cause)) ∨
  (truthy (py_or model (env !! "LITELLM_MODEL")) = true ∧
   ∃ response,
     completion
       (completion_params (py_or model (env !! "LITELLM_MODEL"))
          (prompt role_title role_description context task) temperature)
       = Ok response ∧
     ((∃ cause,
         extract_content response = Raise cause ∧
         is_AttributeError_or_IndexError cause = true ∧
         e = ToolError ("Unexpected response format: " +:+ str_exn cause)) ∨
      (∃ choices,
         attribute response "choices" = Some choices ∧
         is_sequence choices = false ∧
         getitem0 choices = Raise e ∧
         ((∃ msg, e = TypeError msg) ∨ (∃ msg, e = KeyError msg))))).
Proof.
  destruct (truthy (py_or model (env !! "LITELLM_MODEL"))) eqn:Hmodel.
  - rewrite ask_the_voice_resolved by done. cbn [fst].
    destruct (completion _) as [response|cause] eqn:Hcompletion.
    + unfold try_except.
      destruct (extract_content response) as [content|e'] eqn:Hextract;
        [done|].
      destruct (extract_content_raises _ _ Hextract)
        as [Hcaught|(choices & Hchoices & Hseq & Hitem & Hpass & Hclass)].
      * rewrite Hcaught. intros [= <-]. right; right. split; [done|].
        exists response. split; [done|]. left. by exists e'.
      * rewrite Hpass. intros [= <-]. right; right. split; [done|].
        exists response. split; [done|]. right. by exists choices.
    + intros [= <-]. right; left. split; [done|]. by exists cause.
  - rewrite ask_the_voice_unresolved by done. intros [= <-]. by left.
Qed.

Lemma exceptions_raised_witness :
  let completion (_ : kwargs) : result value :=
    Raise (TypeError "unsupported operand") in
  let e := ToolError "LLM request failed: unsupported operand" in
  (ask_the_voice completion ∅
     "The Security Architect" "X" "Y" "Z" (Some "openai/gpt-4") None []).1
    = Raise e ∧
  ∃ cause,
    completion
      (completion_params (Some "openai/gpt-4")
         (prompt "The Security Architect" "X" "Y" "Z") None)
      = Raise cause ∧
    e = ToolError ("LLM request failed: " +:+ str_exn cause).
Proof.
  cbv zeta. split; [reflexivity|].
  destruct (exceptions_raised (λ _, Raise (TypeError "unsupported operand")) ∅
    "The Security Architect" "X" "Y" "Z" (Some "openai/gpt-4") None []
    (ToolError "LLM request failed: unsupported operand") eq_refl)
    as [[Hfalse _]|[[_ Hraised]|[_ (response & Hok & _)]]].
  - discriminate Hfalse.
  - exact Hraised.
  - discriminate Hok.
Defined.

(** Property X14.  A response whose [choices] attribute is present but is
    neither a sequence nor a mapping ([None], a number, a plain object) makes
    [ask_the_voice] raise the [TypeError] of the failed indexing, and a dict
    of [choices] the [KeyError] of the key [0]: the handler around the
    extraction names [AttributeError] and [IndexError] only. *)
Theorem unindexable_choices_not_wrapped
    (completion : kwargs → result value) (env : gmap string string)
    (role_title role_description context task : string)
    (model : option string) (temperature : option float)
    (log : list kwargs) (response choices : value) :
  truthy (py_or model (env !! "LITELLM_MODEL")) = true →
  completion
    (completion_params (py_or model (env !! "LITELLM_MODEL"))
       (prompt role_title role_description context task) temperature)
    = Ok response →
  attribute response "choices" = Some choices →
  (not_subscriptable choices = true →
   (ask_the_voice completion env role_title role_description context task
      model temperature log).1
   = Raise (TypeError
       ("'" +:+ type_name choices +:+ "' object is not subscriptable"))) ∧
  (∀ entries, choices = VDict entries →
   (ask_the_voice completion env role_title role_description context task
      model temperature log).1
   = Raise (KeyError "0")).
Proof.
  intros Hmodel Hresponse Hchoices.
  rewrite ask_the_voice_resolved by done. rewrite Hresponse. cbn [fst].
  unfold extract_content, getattr. rewrite Hchoices. simpl. split.
  - by destruct choices.
  - by intros entries ->.
Qed.

Lemma unindexable_choices_not_wrapped_witness :
  (ask_the_voice
     (λ _, Ok (VObj "ModelResponse" {[ "choices" := VNone ]})) ∅
     "The Security Architect" "X" "Y" "Z" (Some "openai/gpt-4") None []).1
  = Raise (TypeError "'NoneType' object is not subscriptable").
Proof.
  refine (proj1 (unindexable_choices_not_wrapped
    (λ _, Ok (VObj "ModelResponse" {[ "choices" := VNone ]})) ∅
    "The Security Architect" "X" "Y" "Z" (Some "openai/gpt-4") None []
    (VObj "ModelResponse" {[ "choices" := VNone ]}) VNone
    eq_refl eq_refl eq_refl) eq_refl).
Defined.

Lemma py_or_given (m : string) (fallback : option string) :
  m ≠ "" → py_or (Some m) fallback = Some m.
Proof. intros Hne. unfold py_or. simpl. by rewrite bool_decide_eq_true_2. Qed.

(** Property X15.  A non-empty model argument wins over [LITELLM_MODEL]:
    [completion] is called exactly once, with that model.  The keyword
    arguments of the call are the same in every environment and however
    [completion] behaves there: [ask_the_voice] puts nothing from the
    environment into them. *)
Theorem model_argument_overrides_environment
    (completion completion' : kwargs → result value)
    (env env' : gmap string string)
    (role_title role_description context task : string)
    (m : string) (temperature : option float) (log : list kwargs) :
  m ≠ "" →
  (ask_the_voice completion env role_title role_description context task
     (Some m) temperature log).2
  = log ++
    [completion_params (Some m)
       (prompt role_title role_description context task) temperature] ∧
  (ask_the_voice completion' env' role_title role_description context task
     (Some m) temperature log).2
  = (ask_the_voice completion env role_title role_description context task
       (Some m) temperature log).2.
Proof.
  intros Hne.
  assert (Hresolved : ∀ env0 : gmap string string,
    truthy (py_or (Some m) (env0 !! "LITELLM_MODEL")) = true).
  { intros env0. rewrite py_or_given by done. simpl.
    by rewrite bool_decide_eq_true_2. }
  rewrite !ask_the_voice_resolved by done.
  by rewrite !py_or_given.
Qed.

Lemma model_argument_overrides_environment_witness :
  let reply : value :=
    VObj "ModelResponse" {[ "choices" := VList
      [ VObj "Choices" {[ "message" :=
          VObj "Message" {[ "content" := VStr "ok" ]} ]} ] ]} in
  (ask_the_voice (λ _, Ok reply)
     {[ "LITELLM_MODEL" := "openai/gpt-4"; "ANTHROPIC_API_KEY" := "key" ]}
     "The Security Architect" "X" "Y" "Z" (Some "anthropic/claude-3") None []).2
  = [completion_params (Some "anthropic/claude-3")
       (prompt "The Security Architect" "X" "Y" "Z") None] ∧
  (ask_the_voice (λ _, Raise (Exception "AuthenticationError")) ∅
     "The Security Architect" "X" "Y" "Z" (Some "anthropic/claude-3") None []).2
  = (ask_the_voice (λ _, Ok reply)
       {[ "LITELLM_MODEL" := "openai/gpt-4"; "ANTHROPIC_API_KEY" := "key" ]}
       "The Security Architect" "X" "Y" "Z" (Some "anthropic/claude-3") None
       []).2.
Proof.
  cbv zeta.
  apply (model_argument_overrides_environment _ _
    {[ "LITELLM_MODEL" := "openai/gpt-4"; "ANTHROPIC_API_KEY" := "key" ]} ∅
    _ _ _ _ "anthropic/claude-3" None []).
  discriminate.
Defined.

Lemma dom_completion_params (selected_model : option string)
    (system_prompt : string) (temperature : option float) :
  dom (completion_params selected_model system_prompt temperature) =
  ({[ "model"; "messages" ]} ∪
   match temperature with
   | Some _ => {[ "temperature" ]}
   | None => ∅
   end : gset string).
Proof.
  unfold completion_params. destruct temperature as [t|].
  - rewrite !dom_insert_L, dom_singleton_L. set_solver.
  - rewrite dom_insert_L, dom_singleton_L. set_solver.
Qed.

(** Property X16.  [completion] is never called without a model: in every
    call made, the keyword [model] is a non-empty string, and the keywords
    are [model], [messages] and, when a temperature was supplied,
    [temperature], and no others. *)
Theorem completion_called_with_model
    (completion : kwargs → result value) (env : gmap string string)
    (role_title role_description context task : string)
    (model : option string) (temperature : option float)
    (log : list kwargs) :
  ∃ calls,
    (ask_the_voice completion env role_title role_description context task
       model temperature log).2 = log ++ calls ∧
    ∀ params, params ∈ calls →
      (∃ m, m ≠ "" ∧ params !! "model" = Some (VStr m)) ∧
      dom params =
        ({[ "model"; "messages" ]} ∪
         match temperature with
         | Some _ => {[ "temperature" ]}
         | None => ∅
         end : gset string).
Proof.
  destruct (truthy (py_or model (env !! "LITELLM_MODEL"))) eqn:Hmodel.
  - rewrite ask_the_voice_resolved by done. eexists [_]. split; [done|].
    intros params ->%list_elem_of_singleton. split.
    + destruct (py_or model (env !! "LITELLM_MODEL")) as [m|]; [|done].
      exists m. split.
      * simpl in Hmodel. by apply bool_decide_eq_true in Hmodel.
      * unfold completion_params. destruct temperature; simpl.
        -- by rewrite lookup_insert_ne, lookup_insert_eq.
        -- by rewrite lookup_insert_eq.
    + apply dom_completion_params.
  - rewrite ask_the_voice_unresolved by done. exists []. split.
    + by rewrite app_nil_r.
    + by intros params ?%elem_of_nil.
Qed.

(** Property X17.  The texts are not escaped: a section header written
    inside one text is taken as the section boundary.  A role description
    that ends with a context header and some text compiles to the same prompt
    as the request in which that text opens the context. *)
Theorem prompt_sections_not_escaped
    (role_title role_description extra context task : string) :
  prompt role_title
    (role_description +:+ NL +:+ NL +:+ "# Context" +:+ NL +:+ NL +:+ extra)
    context task
  = prompt role_title role_description
      (extra +:+ NL +:+ NL +:+ "# Context" +:+ NL +:+ NL +:+ context) task.
Proof. string_eq. Qed.
